(** * simple_gurobi.py: dimension inference, the canonical MIQP formulator,
      the solution record and the LP / QP / MILP entry points.

    The Python module talks to two external libraries.  [numpy] arrays are
    modelled in [Module np] (binary64 entries are Rocq's primitive floats);
    the Gurobi optimizer is an oracle: the calls made on a model are logged,
    and what [optimize()] leaves behind (status and attributes) is a
    parameter of the development, universally quantified in every theorem. *)

From Stdlib Require Import Floats ZArith Uint63 Ascii String Sorted.
From stdpp Require Import base option list strings.

Set Warnings "-inexact-float".
Set Default Proof Using "Type".

(** ** Python results: a value or a raised exception *)

Inductive exn : Set :=
| TypeError | ValueError | IndexError | AttributeError | OverflowError
| GurobiError.

Inductive result (A : Type) : Type :=
| Ok (a : A)
| Raise (e : exn).
Arguments Ok {A} a.
Arguments Raise {A} e.

#[global] Instance result_ret : MRet result := @Ok.
#[global] Instance result_bind : MBind result := λ A B f r,
  match r with
  | Ok a => f a
  | Raise e => Raise e
  end.
#[global] Instance result_fmap : FMap result := λ A B f r,
  match r with
  | Ok a => Ok (f a)
  | Raise e => Raise e
  end.

(** ** The part of numpy the module uses *)

Module np.

(** A 1-D array, or an n-by-1 column: [shape[0]], [numpy.size] and
    [flatten()] agree on both layouts, and the module reads vectors through
    these three only. *)
Abbreviation vector := (list float).

(** A 2-D array of shape [(length mrows, ncols)].  The column count is kept
    apart from the rows because an array of shape (0, n) still has
    [shape[1] = n]. *)
Record matrix : Type := Matrix { ncols : nat; mrows : list vector }.

Definition shape0 (M : matrix) : nat := length (mrows M).
Definition shape1 (M : matrix) : nat := ncols M.

(** [v.shape[0]] of a vector *)
Definition shape0v (v : vector) : nat := length v.

(** [numpy.size] *)
Definition size_m (M : matrix) : nat := shape0 M * shape1 M.
Definition size (v : vector) : nat := length v.

(** [v.flatten()] *)
Definition flatten (v : vector) : vector := v.

(** One entry of [A @ x].  numpy hands the sum to BLAS, which fixes no order
    of summation; the terms are added left to right here. *)
Definition dot (u v : vector) : float :=
  foldl (λ acc p, (acc + p.1 * p.2)%float) 0%float (zip u v).

(** [A @ x] for a 2-D [A] and a 1-D [x]: the inner dimensions must agree. *)
Definition matmul (A : matrix) (x : vector) : result vector :=
  if decide (shape1 A = length x)
  then Ok ((λ row, dot row x) <$> mrows A)
  else Raise ValueError.

(** Broadcasting of a binary ufunc over two 1-D arrays: equal lengths, or
    one of them of length one which is then stretched. *)
Definition broadcast {A B C : Type} (f : A → B → C)
    (x : list A) (y : list B) : result (list C) :=
  if decide (length x = length y) then Ok (zip_with f x y)
  else match x, y with
       | [a], _ => Ok (f a <$> y)
       | _, [b] => Ok ((λ a, f a b) <$> x)
       | _, _ => Raise ValueError
       end.

Definition subtract : vector → vector → result vector :=
  broadcast PrimFloat.sub.

(** [a ** 2] on a float array *)
Definition square (x : float) : float := (x * x)%float.

(** [a < t] against a scalar *)
Definition less (a : vector) (t : float) : list bool :=
  (λ x, PrimFloat.ltb x t) <$> a.

(** [numpy.where(mask)] on a 1-D mask: the positions that hold [True], in
    increasing order.  (numpy wraps them in a 1-tuple.) *)
Fixpoint where_from (i : nat) (mask : list bool) : list nat :=
  match mask with
  | [] => []
  | m :: mask' =>
      if m then i :: where_from (S i) mask' else where_from (S i) mask'
  end.
Definition where_ (mask : list bool) : list nat := where_from 0 mask.

(** [numpy.isclose] with its default [rtol], [atol] and [equal_nan=False] *)
Definition rtol : float := 1e-05%float.
Definition atol : float := 1e-08%float.
Definition isfinite (x : float) : bool :=
  negb (PrimFloat.is_nan x || PrimFloat.is_infinity x).
Definition isclose (x y : float) : bool :=
  if isfinite x && isfinite y
  then PrimFloat.leb (PrimFloat.abs (x - y)) (atol + rtol * PrimFloat.abs y)
  else PrimFloat.eqb x y.

(** [numpy.allclose(a, b)].  [None] becomes a 0-d object array on which the
    float ufuncs raise [TypeError]; shapes that do not broadcast raise
    [ValueError]; otherwise every pair must be close. *)
Definition allclose (a b : option vector) : result bool :=
  match a, b with
  | Some x, Some y => r ← broadcast isclose x y; Ok (forallb id r)
  | _, _ => Raise TypeError
  end.

(** An index array read as floats ([isclose] casts to float64; the
    positions of an array stay far below 2^63). *)
Definition astype_float (idx : list nat) : vector :=
  (λ i, PrimFloat.of_uint63 (Uint63.of_Z (Z.of_nat i))) <$> idx.

(** Integer indexing along an axis of length [n]: negative indices count
    from the end, anything outside [-n, n) raises. *)
Definition index (n : nat) (i : Z) : result nat :=
  if decide (0 ≤ i < Z.of_nat n)%Z then Ok (Z.to_nat i)
  else if decide (- Z.of_nat n ≤ i < 0)%Z then Ok (Z.to_nat (i + Z.of_nat n))
  else Raise IndexError.

(** [numpy.chararray(n)]: [n] one-byte cells, not initialised ([None]). *)
Definition chararray (n : nat) : list (option ascii) := replicate n None.

(** [a[idx] = v] for a list of indices *)
Fixpoint setitem {A : Type} (a : list A) (idx : list Z) (v : A)
    : result (list A) :=
  match idx with
  | [] => Ok a
  | i :: idx' => k ← index (length a) i; setitem (<[k:=v]> a) idx' v
  end.

End np.

Abbreviation matrix := np.matrix.
Abbreviation vector := np.vector.

(** ** Dimension inference *)

Definition get_program_parameters (Q : option matrix) (c : option vector)
    (A : option matrix) (b : option vector) : result (nat * nat) :=
  let num_c := 0 in
  let num_v := 0 in
  let num_v := match Q with Some q => np.shape0 q | None => num_v end in
  '(num_v, num_c) ←
    match A with
    | Some a =>
        let num_v := np.shape1 a in
        match b with
        | Some bv => Ok (num_v, np.shape0v bv)
        | None => Raise AttributeError
        end
    | None => Ok (num_v, num_c)
    end;
  let num_v := match c with Some cv => np.size cv | None => num_v end in
  Ok (num_v, num_c).

(** ** The Gurobi interface *)

Module GRB.

(** Status codes of a model, [GRB.LOADED = 1] to [GRB.MEM_LIMIT = 17]. *)
Inductive Status : Set :=
| LOADED | OPTIMAL | INFEASIBLE | INF_OR_UNBD | UNBOUNDED | CUTOFF
| ITERATION_LIMIT | NODE_LIMIT | TIME_LIMIT | SOLUTION_LIMIT | INTERRUPTED
| NUMERIC | SUBOPTIMAL | INPROGRESS | USER_OBJ_LIMIT | WORK_LIMIT
| MEM_LIMIT.

#[global] Instance Status_eq_dec : EqDecision Status.
Proof. solve_decision. Defined.

(** Variable types: only the two that [solve_miqp] hands out. *)
Inductive VType : Set := CONTINUOUS | BINARY.

(** Constraint senses are characters. *)
Definition LESS_EQUAL : ascii := "<"%char.
Definition EQUAL : ascii := "="%char.

End GRB.

Inductive ParamValue : Set :=
| PInt (z : Z)
| PFloat (f : float).

(** [0 + .5 * (x @ Q @ x) + c.flatten() @ x]: each term is there only when
    its coefficients are. *)
Record Objective : Type := { quadratic : option matrix; linear : option vector }.

(** A call on the model object.  [addMVar] always passes
    [lb=-GRB.INFINITY, ub=GRB.INFINITY], [setObjective] always
    [sense=GRB.MINIMIZE]. *)
Inductive SolverCall : Type :=
| Model_new
| setParam (name : string) (value : ParamValue)
| addMVar (n : nat) (vtype : list GRB.VType)
| addMConstrs (A : option matrix) (sense : list (option ascii)) (b : option vector)
| setObjective (objective : Objective)
| optimize
| update.

(** A model is known by the calls made on it, oldest first. *)
Definition Model : Type := list SolverCall.

(** What [optimize()] leaves on the model: the status, and the attributes
    ([getAttr] raises when Gurobi has none to give). *)
Record Solved : Type := {
  status : GRB.Status;
  ObjVal : result float;
  X : result vector;
  Pi : result vector;
  Slack : result vector
}.

(** ** Code that calls the solver: the model is threaded, an exception stops it *)

Definition Py (A : Type) : Type := Model → Model * result A.

#[global] Instance Py_ret : MRet Py := λ A a model, (model, Ok a).
#[global] Instance Py_bind : MBind Py := λ A B f x model,
  match x model with
  | (model', Ok a) => f a model'
  | (model', Raise e) => (model', Raise e)
  end.

Definition lift {A : Type} (r : result A) : Py A := λ model, (model, r).
Definition call (c : SolverCall) : Py unit := λ model, (model ++ [c], Ok tt).
Definition when (b : bool) (p : Py unit) : Py unit := if b then p else mret tt.

(** ** The solution record *)

Record SolverOutput : Type := {
  obj : float;
  sol : vector;
  slack : option vector;
  active_set : option (list nat);
  dual : option vector
}.

(** [x ** 2] on a Python float goes through C [pow], which CPython turns
    into [OverflowError] when a finite base overflows; the square itself is
    taken as the correctly rounded [x * x]. *)
Definition float_pow2 (x : float) : result float :=
  let y := (x * x)%float in
  if np.isfinite x && PrimFloat.is_infinity y then Raise OverflowError else Ok y.

(** [SolverOutput.__eq__] on two records (the [isinstance] test has passed).
    Python's [and] stops at the first operand that is false, and an
    exception in an operand leaves the whole comparison. *)
Definition SolverOutput_eq (self other : SolverOutput) : result bool :=
  t ← np.allclose (slack self) (slack other);
  if negb t then Ok false else
  t ← np.allclose (np.astype_float <$> active_set self)
                  (np.astype_float <$> active_set other);
  if negb t then Ok false else
  t ← np.allclose (dual self) (dual other);
  if negb t then Ok false else
  t ← np.allclose (Some (sol self)) (Some (sol other));
  if negb t then Ok false else
  d ← float_pow2 (obj self - obj other)%float;
  Ok (PrimFloat.ltb d 1e-10%float).

(** ** The canonical formulator and the entry points *)

Section Solver.

(** The optimizer: from the calls made on a model up to [optimize()], what
    the model then reports -- or the [GurobiError] it raised on the way. *)
Context (gurobi : Model → result Solved).

Definition model_optimize : Py Solved :=
  λ model, let model := model ++ [optimize] in (model, gurobi model).

(** Lines 149-164 of [solve_miqp]: the record built from a solved model.
    The threshold [10 ** -12] is the float [1e-12]. *)
Definition extract_solution (solved : Solved)
    (A : option matrix) (b : option vector) (num_constraints : nat)
    (bin_vars : list Z) (get_duals : bool) : result SolverOutput :=
  o ← ObjVal solved;
  x ← X solved;
  let sol0 :=
    {| obj := o; sol := x; slack := None; active_set := None; dual := None |} in
  if decide (num_constraints ≠ 0) then
    du ← (if get_duals then
            if decide (length bin_vars = 0) then Some <$> Pi solved
            else Ok (dual sol0)
          else Ok (dual sol0));
    sl ← Slack solved;
    match A, b with
    | Some a, Some bv =>
        ax ← np.matmul a (np.flatten x);
        r ← np.subtract ax (np.flatten bv);
        let act := np.where_ (np.less (np.square <$> r) 1e-12%float) in
        Ok {| obj := o; sol := x; slack := Some sl;
              active_set := Some act; dual := du |}
    | _, _ =>
        (* not reached: a non-zero count comes from [A] and [b] *)
        Raise TypeError
    end
  else Ok sol0.

Definition solve_miqp (Q : option matrix) (c : option vector)
    (A : option matrix) (b : option vector)
    (equality_constraints bin_vars : option (list Z))
    (verbose get_duals : bool) : Model * result (option SolverOutput) :=
  (call Model_new;;
   when (negb verbose) (call (setParam "OutputFlag" (PInt 0)));;
   let equality_constraints := default [] equality_constraints in
   let bin_vars := default [] bin_vars in
   when (bool_decide (length bin_vars = 0)) (call (setParam "Method" (PInt 0)));;
   call (setParam "Quad" (PInt 1));;
   call (setParam "FeasibilityTol" (PFloat 1e-9));;
   call (setParam "OptimalityTol" (PFloat 1e-9));;
   call (setParam "Presolve" (PInt 0));;
   '(num_vars, num_constraints) ← lift (get_program_parameters Q c A b);
   if bool_decide (A = None) && bool_decide (Q = None) then mret None else
   let var_types :=
     (λ i, if bool_decide (Z.of_nat i ∈ bin_vars)
           then GRB.BINARY else GRB.CONTINUOUS) <$> seq 0 num_vars in
   call (addMVar num_vars var_types);;
   (if bool_decide (num_constraints ≠ 0) then
      let sense := np.chararray num_constraints in
      sense ← lift (np.setitem sense equality_constraints (Some GRB.EQUAL));
      let inequality :=
        filter (λ i, i ∉ equality_constraints)
               (Z.of_nat <$> seq 0 num_constraints) in
      sense ← lift (np.setitem sense inequality (Some GRB.LESS_EQUAL));
      call (addMConstrs A sense b)
    else mret tt);;
   call (setObjective {| quadratic := Q; linear := np.flatten <$> c |});;
   solved ← model_optimize;
   call update;;
   let status := status solved in
   if bool_decide (status ≠ GRB.OPTIMAL ∧ status ≠ GRB.SUBOPTIMAL)
   then mret None else
   sol ← lift (extract_solution solved A b num_constraints bin_vars get_duals);
   mret (Some sol)) [].

Definition solve_qp (Q : option matrix) (c : option vector)
    (A : option matrix) (b : option vector)
    (equality_constraints : option (list Z))
    (verbose get_duals : bool) : Model * result (option SolverOutput) :=
  solve_miqp Q c A b equality_constraints None verbose get_duals.

Definition solve_lp (c : option vector) (A : option matrix) (b : option vector)
    (equality_constraints : option (list Z))
    (verbose get_duals : bool) : Model * result (option SolverOutput) :=
  match A, b with
  | Some a, Some bv =>
      if bool_decide (np.size_m a = 0) || bool_decide (np.size bv = 0)
      then ([], Ok None)
      else solve_miqp None c A b equality_constraints None verbose get_duals
  | _, _ => ([], Ok None)
  end.

Definition solve_milp (c : option vector) (A : option matrix) (b : option vector)
    (equality_constraints bin_vars : option (list Z))
    (verbose get_duals : bool) : Model * result (option SolverOutput) :=
  match A, b with
  | Some a, Some bv =>
      if bool_decide (np.size_m a = 0) || bool_decide (np.size bv = 0)
      then ([], Ok None)
      else solve_miqp None c A b equality_constraints bin_vars verbose get_duals
  | _, _ => ([], Ok None)
  end.

End Solver.

(** ** The formulator, phase by phase

    Names for what the log holds at each stage of [solve_miqp]; that the
    function is made of these is lemma [solve_miqp_phases]. *)

(** The log after lines 93-110: a new model and its parameters. *)
Definition configured (verbose : bool) (bin_vars : list Z) : Model :=
  [Model_new]
  ++ (if verbose then [] else [setParam "OutputFlag" (PInt 0)])
  ++ (if bool_decide (length bin_vars = 0)
      then [setParam "Method" (PInt 0)] else [])
  ++ [setParam "Quad" (PInt 1);
      setParam "FeasibilityTol" (PFloat 1e-9);
      setParam "OptimalityTol" (PFloat 1e-9);
      setParam "Presolve" (PInt 0)].

(** Line 118. *)
Definition var_types (num_vars : nat) (bin_vars : list Z) : list GRB.VType :=
  (λ i, if bool_decide (Z.of_nat i ∈ bin_vars)
        then GRB.BINARY else GRB.CONTINUOUS) <$> seq 0 num_vars.

(** Lines 121-128: the constraint block, or nothing without constraints. *)
Definition constraint_calls (A : option matrix) (b : option vector)
    (num_constraints : nat) (equality_constraints : list Z)
    : result (list SolverCall) :=
  if bool_decide (num_constraints ≠ 0) then
    sense ← np.setitem (np.chararray num_constraints) equality_constraints
                       (Some GRB.EQUAL);
    sense ← np.setitem sense
              (filter (λ i, i ∉ equality_constraints)
                      (Z.of_nat <$> seq 0 num_constraints))
              (Some GRB.LESS_EQUAL);
    Ok [addMConstrs A sense b]
  else Ok [].

(** The model as [optimize()] receives it. *)
Definition submitted (Q : option matrix) (c : option vector)
    (verbose : bool) (bin_vars : list Z) (num_vars : nat)
    (constraints : list SolverCall) : Model :=
  configured verbose bin_vars
  ++ [addMVar num_vars (var_types num_vars bin_vars)]
  ++ constraints
  ++ [setObjective {| quadratic := Q; linear := np.flatten <$> c |}; optimize].

Definition solved_ok (s : Solved) : Prop :=
  status s = GRB.OPTIMAL ∨ status s = GRB.SUBOPTIMAL.

(** Every index of the list names a row: what [sense[...] = ...] needs. *)
Definition rows_in_range (num_constraints : nat) (idx : list Z) : Prop :=
  Forall (λ i, - Z.of_nat num_constraints ≤ i < Z.of_nat num_constraints)%Z idx.

(** [A] takes a vector of the length of [x] and has a row per entry of [b]. *)
Definition conformable (A : option matrix) (b : option vector) (x : vector)
    : Prop :=
  ∃ a bv, A = Some a ∧ b = Some bv
          ∧ np.shape1 a = length x ∧ np.shape0 a = np.shape0v bv.

(** ** Reading a log *)

Definition is_setParam (c : SolverCall) : bool :=
  match c with setParam _ _ => true | _ => false end.
Definition is_addMConstrs (c : SolverCall) : bool :=
  match c with addMConstrs _ _ _ => true | _ => false end.

(** The row indices [sense[...] = ...] accepts. *)
Definition row_index (num_constraints : nat) (i : Z) : Prop :=
  (- Z.of_nat num_constraints ≤ i < Z.of_nat num_constraints)%Z.

(** ** The descriptions the code is held against *)

(** The variable count: the last source present in the order [Q], [A], [c]. *)
Definition n_vars_described (Q : option matrix) (c : option vector)
    (A : option matrix) : nat :=
  match c, A, Q with
  | Some cv, _, _ => length cv
  | None, Some a, _ => np.ncols a
  | None, None, Some q => length (np.mrows q)
  | None, None, None => 0
  end.

(** The constraint count: the length of [b] under an [A], zero without one. *)
Definition n_constraints_described (A : option matrix) (b : option vector)
    : nat :=
  match A with
  | Some _ => from_option length 0 b
  | None => 0
  end.

(** The inputs the LP and MILP entry points turn away: [A] or [b] missing,
    or of size zero. *)
Definition degenerate (A : option matrix) (b : option vector) : Prop :=
  A = None ∨ b = None
  ∨ (∃ a, A = Some a ∧ np.size_m a = 0) ∨ (∃ bv, b = Some bv ∧ np.size bv = 0).

(** ** Concrete problems and an optimizer that answers them *)

(** Three sources that disagree on the number of variables: a 3-by-3 [Q], a
    2-by-5 [A] with two right-hand sides, a [c] of length 4. *)
Definition disagreeing_Q : matrix :=
  np.Matrix 3 [[1; 0; 0]; [0; 1; 0]; [0; 0; 1]]%float.
Definition disagreeing_A : matrix :=
  np.Matrix 5 [[1; 0; 0; 0; 0]; [0; 1; 0; 0; 0]]%float.
Definition disagreeing_c : vector := [1; 1; 1; 1]%float.
Definition disagreeing_b : vector := [0; 0]%float.

(** [min x1 + x2] subject to [-x <= 0], and [min 1/2 x.x]; both have their
    optimum at the origin. *)
Definition nonneg_A : matrix := np.Matrix 2 [[-1; 0]; [0; -1]]%float.
Definition nonneg_b : vector := [0; 0]%float.
Definition nonneg_c : vector := [1; 1]%float.
Definition identity_Q : matrix := np.Matrix 2 [[1; 0]; [0; 1]]%float.

Definition origin_solved : Solved :=
  {| status := GRB.OPTIMAL; ObjVal := Ok 0%float; X := Ok [0; 0]%float;
     Pi := Ok [-1; -1]%float; Slack := Ok [0; 0]%float |}.

Definition origin_oracle : Model → result Solved := λ _, Ok origin_solved.

Definition nonneg_record : SolverOutput :=
  {| obj := 0; sol := [0; 0]%float; slack := Some [0; 0]%float;
     active_set := Some [0; 1]; dual := Some [-1; -1]%float |}.

Definition origin_record : SolverOutput :=
  {| obj := 0; sol := [0; 0]%float; slack := None; active_set := None;
     dual := None |}.

Definition nonneg_log : Model :=
  (solve_miqp origin_oracle None (Some nonneg_c) (Some nonneg_A)
     (Some nonneg_b) None None false true).1.

Definition origin_log : Model :=
  (solve_miqp origin_oracle (Some identity_Q) None None None None None false
     true).1.

(** The same linear problem with rows -1 and 0 asked as equalities, and with
    variable 1 binary. *)
Definition equality_run : Model * result (option SolverOutput) :=
  solve_miqp origin_oracle None (Some nonneg_c) (Some nonneg_A)
    (Some nonneg_b) (Some [-1; 0]%Z) None false true.

Definition mixed_run : Model * result (option SolverOutput) :=
  solve_milp origin_oracle (Some nonneg_c) (Some nonneg_A) (Some nonneg_b)
    None (Some [1%Z]) false true.

Definition mixed_record : SolverOutput :=
  {| obj := 0; sol := [0; 0]%float; slack := Some [0; 0]%float;
     active_set := Some [0; 1]; dual := None |}.

(** A record of a problem with three constraints, all active. *)
Definition three_active_record : SolverOutput :=
  {| obj := 0; sol := [0; 0]%float; slack := Some [0; 0]%float;
     active_set := Some [0; 1; 2]; dual := Some [-1; -1]%float |}.

(** * Properties *)

(** ** numpy: [where], the residual, indexed assignment *)

Lemma elem_of_where_from (mask : list bool) (i j : nat) :
  j ∈ np.where_from i mask ↔ i ≤ j ∧ mask !! (j - i) = Some true.
Proof.
  revert i. induction mask as [|m mask IH]; intros i; simpl.
  - rewrite elem_of_nil, lookup_nil. split; [done|by intros [_ ?]].
  - assert (Hstep : S i ≤ j → (m :: mask) !! (j - i) = mask !! (j - S i)).
    { intros Hle. replace (j - i) with (S (j - S i)) by lia. done. }
    destruct m.
    + rewrite elem_of_cons, IH. split.
      * intros [->|[Hle Hlk]].
        -- split; [lia|]. by rewrite Nat.sub_diag.
        -- split; [lia|]. by rewrite Hstep.
      * intros [Hle Hlk]. destruct (decide (j = i)) as [->|Hne]; [by left|].
        right. split; [lia|]. rewrite <- Hstep by lia. done.
    + rewrite IH. split.
      * intros [Hle Hlk]. split; [lia|]. by rewrite Hstep.
      * intros [Hle Hlk]. destruct (decide (j = i)) as [->|Hne].
        -- rewrite Nat.sub_diag in Hlk. done.
        -- split; [lia|]. rewrite <- Hstep by lia. done.
Qed.

Lemma elem_of_where (mask : list bool) (j : nat) :
  j ∈ np.where_ mask ↔ mask !! j = Some true.
Proof.
  unfold np.where_. rewrite elem_of_where_from, Nat.sub_0_r.
  split; [by intros [_ ?]|]. intros ?. split; [lia|done].
Qed.

Lemma NoDup_where_from (mask : list bool) (i : nat) :
  NoDup (np.where_from i mask).
Proof.
  revert i. induction mask as [|m mask IH]; intros i; simpl.
  - constructor.
  - destruct m; [|done]. constructor; [|done].
    rewrite elem_of_where_from. lia.
Qed.

Lemma less_square_lookup (r : vector) (t : float) (i : nat) :
  np.less (np.square <$> r) t !! i = Some true ↔
  ∃ ri, r !! i = Some ri ∧ PrimFloat.ltb (ri * ri) t = true.
Proof.
  unfold np.less, np.square. rewrite !list_lookup_fmap.
  destruct (r !! i) as [ri|]; simpl;
    [|split; [intros ?|intros (? & ? & ?)]; simplify_eq].
  split.
  - intros Hlt. simplify_eq. eauto.
  - intros (? & ? & Hlt). simplify_eq. by rewrite Hlt.
Qed.

(** With as many rows as right-hand sides nothing is stretched: entry [i] of
    [A @ x - b] is row [i] of [A] against [x], minus [b[i]]. *)
Lemma residual_lookup (a : matrix) (x bv ax r : vector) (i : nat) row bi :
  np.matmul a x = Ok ax →
  np.subtract ax bv = Ok r →
  np.shape0 a = np.shape0v bv →
  np.mrows a !! i = Some row →
  bv !! i = Some bi →
  r !! i = Some (np.dot row x - bi)%float.
Proof.
  unfold np.matmul, np.subtract, np.broadcast, np.shape0, np.shape0v.
  intros Hax Hr Hlen Hrow Hbi.
  destruct (decide (np.shape1 a = length x)); [|done].
  simplify_eq. rewrite length_fmap in Hr.
  destruct (decide (length (np.mrows a) = length bv)); [|done].
  simplify_eq. by rewrite lookup_zip_with, list_lookup_fmap, Hrow, Hbi.
Qed.

Lemma index_spec (n : nat) (i : Z) (k : nat) :
  np.index n i = Ok k →
  k < n ∧ (Z.of_nat k = i ∨ Z.of_nat k = (i + Z.of_nat n)%Z ∧ (i < 0)%Z).
Proof.
  unfold np.index. intros Hk.
  destruct (decide (0 ≤ i < Z.of_nat n)%Z); [simplify_eq; lia|].
  destruct (decide (- Z.of_nat n ≤ i < 0)%Z); simplify_eq. lia.
Qed.

Lemma index_in_range (n : nat) (i : Z) :
  (- Z.of_nat n ≤ i < Z.of_nat n)%Z → ∃ k, np.index n i = Ok k.
Proof.
  unfold np.index. intros Hi.
  destruct (decide (0 ≤ i < Z.of_nat n)%Z); [by eexists|].
  destruct (decide (- Z.of_nat n ≤ i < 0)%Z); [by eexists|lia].
Qed.

Lemma setitem_length {A} (a a' : list A) idx v :
  np.setitem a idx v = Ok a' → length a' = length a.
Proof.
  revert a. induction idx as [|i idx IH]; intros a Hset; simpl in Hset.
  - by simplify_eq.
  - destruct (np.index (length a) i) as [k|]; simplify_eq/=.
    apply IH in Hset. by rewrite length_insert in Hset.
Qed.

Lemma setitem_in_range {A} (a : list A) idx v :
  rows_in_range (length a) idx → ∃ a', np.setitem a idx v = Ok a'.
Proof.
  unfold rows_in_range.
  revert a. induction idx as [|i idx IH]; intros a Hidx; simpl.
  - by eexists.
  - apply Forall_cons in Hidx as [Hi Hidx].
    destruct (index_in_range _ _ Hi) as [k ->]. simpl.
    apply IH. by rewrite length_insert.
Qed.

(** A value once in a cell stays: every write is of the same value. *)
Lemma setitem_keeps {A} (a a' : list A) idx v (k : nat) :
  np.setitem a idx v = Ok a' → a !! k = Some v → a' !! k = Some v.
Proof.
  revert a. induction idx as [|i idx IH]; intros a Hset Hk; simpl in Hset.
  - by simplify_eq.
  - destruct (np.index (length a) i) as [j|]; simplify_eq/=.
    apply (IH (<[j:=v]> a)); [done|].
    destruct (decide (j = k)) as [->|Hne].
    + apply list_lookup_insert_eq. by eapply lookup_lt_Some.
    + by rewrite list_lookup_insert_ne.
Qed.

(** A cell named by a non-negative index holds the value afterwards. *)
Lemma setitem_written {A} (a a' : list A) idx v (k : nat) :
  np.setitem a idx v = Ok a' → Z.of_nat k ∈ idx → k < length a →
  a' !! k = Some v.
Proof.
  revert a. induction idx as [|i idx IH]; intros a Hset Hin Hk; simpl in Hset.
  - by apply elem_of_nil in Hin.
  - destruct (np.index (length a) i) as [j|] eqn:Hj; simplify_eq/=.
    apply elem_of_cons in Hin as [<-|Hin].
    + assert (j = k) as -> by (apply index_spec in Hj; lia).
      eapply setitem_keeps; [done|]. by apply list_lookup_insert_eq.
    + apply (IH (<[j:=v]> a)); [done..|]. by rewrite length_insert.
Qed.

(** Non-negative indices leave the cells they do not name alone. *)
Lemma setitem_untouched {A} (a a' : list A) idx v (k : nat) :
  np.setitem a idx v = Ok a' → Forall (λ i, 0 ≤ i)%Z idx → Z.of_nat k ∉ idx →
  a' !! k = a !! k.
Proof.
  revert a. induction idx as [|i idx IH]; intros a Hset Hpos Hin; simpl in Hset.
  - by simplify_eq.
  - destruct (np.index (length a) i) as [j|] eqn:Hj; simplify_eq/=.
    apply Forall_cons in Hpos as [Hi Hpos].
    apply not_elem_of_cons in Hin as [Hne Hin].
    rewrite (IH _ Hset Hpos Hin).
    apply list_lookup_insert_ne. apply index_spec in Hj. lia.
Qed.

(** ** Dimension inference *)

Lemma get_program_parameters_constrained Q c A b num_vars num_constraints :
  get_program_parameters Q c A b = Ok (num_vars, num_constraints) →
  num_constraints ≠ 0 →
  ∃ a bv, A = Some a ∧ b = Some bv ∧ num_constraints = np.shape0v bv.
Proof.
  unfold get_program_parameters.
  intros Hgpp Hnc.
  destruct A as [a|], b as [bv|]; simplify_eq/=; try done.
  by exists a, bv.
Qed.

(** An [A] without a [b] raises on [b.shape]. *)
Lemma get_program_parameters_no_b Q c a :
  get_program_parameters Q c (Some a) None = Raise AttributeError.
Proof. reflexivity. Qed.

(** ** The constraint block *)

(** Row [i] is an equality exactly when [i] itself is listed: a negative
    index is written as an equality first and overwritten as an inequality
    afterwards. *)
Lemma constraint_calls_senses A b nc eqs cs :
  nc ≠ 0 → constraint_calls A b nc eqs = Ok cs →
  ∃ sense,
    cs = [addMConstrs A sense b] ∧ length sense = nc ∧
    ∀ i, i < nc →
         sense !! i = Some (Some (if bool_decide (Z.of_nat i ∈ eqs)
                                  then GRB.EQUAL else GRB.LESS_EQUAL)).
Proof.
  unfold constraint_calls. intros Hnc Hcs.
  rewrite bool_decide_eq_true_2 in Hcs by done.
  destruct (np.setitem (np.chararray nc) eqs _) as [s1|] eqn:H1; simplify_eq/=.
  destruct (np.setitem s1 _ _) as [s2|] eqn:H2; simplify_eq/=.
  pose proof (setitem_length _ _ _ _ H1) as Hl1.
  pose proof (setitem_length _ _ _ _ H2) as Hl2.
  unfold np.chararray in Hl1. rewrite length_replicate in Hl1.
  exists s2. split; [done|]. split; [congruence|].
  intros i Hi. case_bool_decide as Hin.
  - rewrite (setitem_untouched _ _ _ _ i H2).
    + eapply setitem_written; [done..|].
      unfold np.chararray. by rewrite length_replicate.
    + apply Forall_forall. intros z [_ Hz]%list_elem_of_filter.
      apply list_elem_of_fmap in Hz as (j & -> & _). lia.
    + by intros [? _]%list_elem_of_filter.
  - eapply setitem_written; [done| |lia].
    apply list_elem_of_filter. split; [done|].
    apply list_elem_of_fmap. exists i. split; [done|].
    apply elem_of_seq. lia.
Qed.

Lemma constraint_calls_in_range A b nc eqs :
  rows_in_range nc eqs → ∃ cs, constraint_calls A b nc eqs = Ok cs.
Proof.
  unfold constraint_calls. intros Heqs.
  case_bool_decide; [|by eexists].
  destruct (setitem_in_range (np.chararray nc) eqs (Some GRB.EQUAL))
    as [s1 H1].
  { unfold np.chararray. by rewrite length_replicate. }
  rewrite H1. simpl.
  apply setitem_length in H1. unfold np.chararray in H1.
  rewrite length_replicate in H1.
  destruct (setitem_in_range s1
              (filter (λ i, i ∉ eqs) (Z.of_nat <$> seq 0 nc))
              (Some GRB.LESS_EQUAL)) as [s2 H2].
  { rewrite H1. apply Forall_forall. intros z [_ Hz]%list_elem_of_filter.
    apply list_elem_of_fmap in Hz as (j & -> & Hj).
    apply elem_of_seq in Hj. lia. }
  rewrite H2. by eexists.
Qed.

(** ** The configuration calls *)

Lemma optimize_not_in_configured verbose bin_vars :
  optimize ∉ configured verbose bin_vars.
Proof.
  unfold configured.
  destruct verbose, (bool_decide (length bin_vars = 0)); simpl; intros Hin;
    repeat (apply elem_of_cons in Hin as [?|Hin]; [discriminate|]);
    by apply elem_of_nil in Hin.
Qed.

Lemma configured_calls verbose bin_vars call :
  call ∈ configured verbose bin_vars →
  call = Model_new ∨ ∃ name value, call = setParam name value.
Proof.
  unfold configured.
  destruct verbose, (bool_decide (length bin_vars = 0)); simpl;
    rewrite ?elem_of_cons, elem_of_nil; intros Hin;
    repeat (destruct Hin as [->|Hin]; [eauto|]); done.
Qed.

Lemma Model_new_in_configured verbose bin_vars :
  Model_new ∈ configured verbose bin_vars.
Proof. unfold configured. simpl. apply elem_of_cons. by left. Qed.

(** ** The extraction of lines 149-164 *)

Lemma extract_solution_unconstrained solved A b bin_vars get_duals r :
  extract_solution solved A b 0 bin_vars get_duals = Ok r →
  ObjVal solved = Ok (obj r) ∧ X solved = Ok (sol r) ∧
  slack r = None ∧ active_set r = None ∧ dual r = None.
Proof.
  unfold extract_solution. intros Hr.
  destruct (ObjVal solved) as [o|], (X solved) as [x|]; simplify_eq/=. done.
Qed.

Lemma extract_solution_constrained solved A b num_constraints bin_vars
    get_duals r :
  num_constraints ≠ 0 →
  extract_solution solved A b num_constraints bin_vars get_duals = Ok r →
  ∃ a bv ax resid sl,
    A = Some a ∧ b = Some bv ∧
    ObjVal solved = Ok (obj r) ∧ X solved = Ok (sol r) ∧
    Slack solved = Ok sl ∧ slack r = Some sl ∧
    np.matmul a (sol r) = Ok ax ∧ np.subtract ax bv = Ok resid ∧
    active_set r =
      Some (np.where_ (np.less (np.square <$> resid) 1e-12%float)) ∧
    (if get_duals && bool_decide (bin_vars = [])
     then ∃ pi, Pi solved = Ok pi ∧ dual r = Some pi
     else dual r = None).
Proof.
  unfold extract_solution, np.flatten. intros Hnc Hr.
  destruct (ObjVal solved) as [o|], (X solved) as [x|]; simplify_eq/=.
  destruct (decide (num_constraints ≠ 0)); [|done].
  assert (Hlen : ∀ l : list Z, length l = 0 ↔ l = []).
  { intros l. split; [apply nil_length_inv|by intros ->]. }
  destruct get_duals; simpl in *;
    [destruct (decide (length bin_vars = 0)) as [Hb|Hb];
       [rewrite (bool_decide_eq_true_2 _ (proj1 (Hlen _) Hb));
        destruct (Pi solved) as [pi|]; simplify_eq/=
       |rewrite bool_decide_eq_false_2 by (by rewrite <- Hlen); simpl in *]|];
    destruct (Slack solved) as [sl|]; simplify_eq/=;
    destruct A as [a|], b as [bv|]; simplify_eq/=;
    destruct (np.matmul a x) as [ax|] eqn:Hax; simplify_eq/=;
    destruct (np.subtract ax bv) as [resid|] eqn:Hres; simplify_eq/=;
    eexists a, bv, ax, resid, sl; repeat split; eauto.
Qed.

(** With the attributes at hand and, under constraints, shapes that fit, the
    extraction does give a record. *)
Lemma extract_solution_total solved A b nc bins get_duals o x sl pi :
  ObjVal solved = Ok o → X solved = Ok x →
  Slack solved = Ok sl → Pi solved = Ok pi →
  (nc ≠ 0 → conformable A b x) →
  ∃ r, extract_solution solved A b nc bins get_duals = Ok r
       ∧ obj r = o ∧ sol r = x.
Proof.
  unfold extract_solution, conformable. intros -> -> -> -> Hshape. simpl.
  destruct (decide (nc ≠ 0)) as [Hnc|]; [|by eexists].
  destruct (Hshape Hnc) as (a & bv & -> & -> & Hcols & Hrows).
  unfold np.matmul, np.subtract, np.broadcast, np.flatten, np.shape0,
    np.shape0v in *.
  rewrite decide_True by done.
  destruct get_duals, (decide (length bins = 0)); simpl;
    rewrite decide_True by (by rewrite length_fmap); by eexists.
Qed.

(** ** C2: dimension inference *)

(** C2.  Whenever [b] comes with [A], dimension inference returns the
    variable count of the last source present in the order Q, A, c, and the
    constraint count [len(b)] under an [A] and 0 without one; with none of
    Q, A, c both counts are 0. *)
Theorem C2_dimension_inference Q c A b :
  (is_Some A → is_Some b) →
  get_program_parameters Q c A b
    = Ok (n_vars_described Q c A, n_constraints_described A b)
  ∧ (Q = None → A = None → c = None →
     get_program_parameters Q c A b = Ok (0, 0)).
Proof.
  intros Hb. split.
  - destruct Q as [q|], c as [cv|], A as [a|]; simpl;
      try reflexivity;
      destruct (Hb (ltac:(by eexists))) as [bv ->]; reflexivity.
  - by intros -> -> ->.
Qed.

(** ** The formulator *)

Section Formulator.

Context (gurobi : Model → result Solved).

(** [solve_miqp] is its phases in a row, each able to end the run. *)
Lemma solve_miqp_phases Q c A b equality_constraints bin_vars verbose get_duals :
  solve_miqp gurobi Q c A b equality_constraints bin_vars verbose get_duals =
  let eqs := default [] equality_constraints in
  let bins := default [] bin_vars in
  match get_program_parameters Q c A b with
  | Raise e => (configured verbose bins, Raise e)
  | Ok (num_vars, num_constraints) =>
      if bool_decide (A = None) && bool_decide (Q = None)
      then (configured verbose bins, Ok None)
      else
        match constraint_calls A b num_constraints eqs with
        | Raise e =>
            (configured verbose bins
             ++ [addMVar num_vars (var_types num_vars bins)], Raise e)
        | Ok cs =>
            let model := submitted Q c verbose bins num_vars cs in
            match gurobi model with
            | Raise e => (model, Raise e)
            | Ok solved =>
                (model ++ [update],
                 if bool_decide (status solved ≠ GRB.OPTIMAL
                                 ∧ status solved ≠ GRB.SUBOPTIMAL)
                 then Ok None
                 else Some <$> extract_solution solved A b num_constraints
                                 bins get_duals)
            end
        end
  end.
Proof.
  unfold solve_miqp, submitted, constraint_calls, configured, var_types.
  unfold mbind, Py_bind, call, when, lift, model_optimize, mret, Py_ret.
  destruct verbose, (bool_decide (length (default [] bin_vars) = 0)); simpl;
    destruct (get_program_parameters Q c A b) as [[num_vars num_constraints]|];
    simpl; try reflexivity;
    destruct (bool_decide (A = None) && bool_decide (Q = None));
    simpl; try reflexivity;
    destruct (bool_decide (num_constraints ≠ 0)); simpl;
    repeat (match goal with
            | |- context [np.setitem ?a ?i ?v] =>
                destruct (np.setitem a i v); simpl; try reflexivity
            end);
    rewrite <- ?app_assoc; simpl;
    repeat (match goal with
            | |- context [gurobi ?m] =>
                destruct (gurobi m) as [solved|]; simpl; try reflexivity
            end);
    destruct (bool_decide _); simpl; try reflexivity;
    destruct (extract_solution _ _ _ _ _ _); reflexivity.
Qed.

(** What a returned record says about the run that made it. *)
Lemma solve_miqp_record Q c A b equality_constraints bin_vars verbose get_duals
    log r :
  solve_miqp gurobi Q c A b equality_constraints bin_vars verbose get_duals
    = (log, Ok (Some r)) →
  ∃ num_vars num_constraints cs solved,
    get_program_parameters Q c A b = Ok (num_vars, num_constraints) ∧
    constraint_calls A b num_constraints (default [] equality_constraints)
      = Ok cs ∧
    gurobi (submitted Q c verbose (default [] bin_vars) num_vars cs)
      = Ok solved ∧
    log = submitted Q c verbose (default [] bin_vars) num_vars cs ++ [update] ∧
    solved_ok solved ∧
    extract_solution solved A b num_constraints (default [] bin_vars) get_duals
      = Ok r.
Proof.
  rewrite solve_miqp_phases. cbv zeta. intros Hrun.
  destruct (get_program_parameters Q c A b) as [[num_vars num_constraints]|];
    [|simplify_eq].
  destruct (bool_decide (A = None) && bool_decide (Q = None)); [simplify_eq|].
  destruct (constraint_calls _ _ _ _) as [cs|] eqn:Hcs; [|simplify_eq].
  destruct (gurobi _) as [solved|] eqn:Hsolved; [|simplify_eq].
  case_bool_decide as Hst; [simplify_eq|].
  destruct (extract_solution _ _ _ _ _ _) as [r'|] eqn:Hr; simplify_eq/=.
  exists num_vars, num_constraints, cs, solved. repeat split; try done.
  unfold solved_ok.
  destruct (decide (status solved = GRB.OPTIMAL)); [by left|].
  destruct (decide (status solved = GRB.SUBOPTIMAL)); [by right|].
  by destruct Hst.
Qed.

(** From a returned record [Hrun] and the counts [Hgpp] of its problem to the
    extraction that built the record, left as [Hr]. *)
Ltac record_of_run Hrun Hgpp Hr :=
  let nv := fresh "nv" in
  let nc := fresh "nc" in
  let cs := fresh "cs" in
  let solved := fresh "solved" in
  let Hgpp' := fresh "Hgpp'" in
  let Hcs := fresh "Hcs" in
  let Hsolved := fresh "Hsolved" in
  apply solve_miqp_record in Hrun
    as (nv & nc & cs & solved & Hgpp' & Hcs & Hsolved & _ & _ & Hr);
  rewrite Hgpp in Hgpp'; simplify_eq.

(** Every run starts by creating a model, so a log without a call is the
    mark of a run that never entered the formulator. *)
Lemma solve_miqp_creates_model Q c A b equality_constraints bin_vars verbose
    get_duals :
  Model_new ∈ (solve_miqp gurobi Q c A b equality_constraints bin_vars verbose
                 get_duals).1.
Proof.
  rewrite solve_miqp_phases. cbv zeta. unfold submitted.
  pose proof (Model_new_in_configured verbose (default [] bin_vars)) as Hin.
  destruct (get_program_parameters Q c A b) as [[num_vars num_constraints]|];
    [|done].
  destruct (bool_decide (A = None) && bool_decide (Q = None)); [done|].
  destruct (constraint_calls _ _ _ _) as [cs|]; cbn [fst];
    [|by apply elem_of_app; left].
  destruct (gurobi _) as [solved|]; cbn [fst];
    rewrite ?elem_of_app; tauto.
Qed.

(** Counts inferred, an objective or constraints to work on, equality
    indices that name rows: the run gets as far as [optimize()]. *)
Lemma solve_miqp_reaches_optimize Q c A b equality_constraints bin_vars verbose
    get_duals num_vars num_constraints :
  get_program_parameters Q c A b = Ok (num_vars, num_constraints) →
  ¬ (A = None ∧ Q = None) →
  rows_in_range num_constraints (default [] equality_constraints) →
  optimize ∈ (solve_miqp gurobi Q c A b equality_constraints bin_vars verbose
                get_duals).1.
Proof.
  intros Hgpp Hposed Heqs.
  rewrite solve_miqp_phases. cbv zeta. rewrite Hgpp.
  destruct (constraint_calls_in_range A b _ _ Heqs) as [cs ->].
  assert (bool_decide (A = None) && bool_decide (Q = None) = false) as ->.
  { apply andb_false_iff.
    destruct (decide (A = None)) as [HA|HA];
      [right|left]; apply bool_decide_eq_false_2; tauto. }
  unfold submitted.
  destruct (gurobi _) as [solved|]; cbn [fst];
    rewrite !elem_of_app, !elem_of_cons; tauto.
Qed.

(** ** The claims on the formulator and the entry points *)

(** C1.  In the record of a solved problem with constraints, [active_set]
    holds exactly the positions [i] of [A @ sol - b] whose square is strictly
    below 1e-12, each once; a position whose square is not below it is left
    out.  With one right-hand side per row, position [i] of the residual is
    row [i] of [A] against [sol], minus [b[i]]. *)
Theorem C1_active_set_exact Q c A b equality_constraints bin_vars verbose
    get_duals log r num_vars num_constraints :
  solve_miqp gurobi Q c A b equality_constraints bin_vars verbose get_duals
    = (log, Ok (Some r)) →
  get_program_parameters Q c A b = Ok (num_vars, num_constraints) →
  0 < num_constraints →
  ∃ a bv ax resid acts,
    A = Some a ∧ b = Some bv ∧
    np.matmul a (sol r) = Ok ax ∧ np.subtract ax bv = Ok resid ∧
    active_set r = Some acts ∧ NoDup acts ∧
    (∀ i, i ∈ acts ↔
          ∃ ri, resid !! i = Some ri
                ∧ PrimFloat.ltb (ri * ri) 1e-12 = true) ∧
    (∀ i ri, resid !! i = Some ri →
             PrimFloat.ltb (ri * ri) 1e-12 = false → i ∉ acts) ∧
    (np.shape0 a = np.shape0v bv →
     ∀ i row bi, np.mrows a !! i = Some row → bv !! i = Some bi →
                 resid !! i = Some (np.dot row (sol r) - bi)%float).
Proof.
  intros Hrun Hgpp Hnc. record_of_run Hrun Hgpp Hr.
  apply extract_solution_constrained in Hr
    as (a & bv & ax & resid & sl & -> & -> & _ & _ & _ & _ & Hax & Hres
        & Hact & _); [|lia].
  assert (Hmem : ∀ i,
    i ∈ np.where_ (np.less (np.square <$> resid) 1e-12%float) ↔
    ∃ ri, resid !! i = Some ri ∧ PrimFloat.ltb (ri * ri) 1e-12 = true).
  { intros i. by rewrite elem_of_where, less_square_lookup. }
  eexists a, bv, ax, resid, _. repeat split; try done.
  - apply NoDup_where_from.
  - by apply Hmem.
  - by apply Hmem.
  - intros i ri Hri Hlt [ri' [Hri' Hlt']]%Hmem. congruence.
  - intros Hshape i row bi Hrow Hbi. by eapply residual_lookup.
Qed.

(** C3.  Without [Q] and without [A] the formulator returns [None] whatever
    the other arguments: the model has been created and its parameters set,
    nothing more -- no variable, constraint or objective, and [optimize()]
    is never called. *)
Theorem C3_ill_posed_returns_none c b equality_constraints bin_vars verbose
    get_duals :
  solve_miqp gurobi None c None b equality_constraints bin_vars verbose
      get_duals
    = (configured verbose (default [] bin_vars), Ok None)
  ∧ (optimize ∉ configured verbose (default [] bin_vars))
  ∧ ∀ call, call ∈ configured verbose (default [] bin_vars) →
            call = Model_new ∨ ∃ name value, call = setParam name value.
Proof.
  split; [|split].
  - rewrite solve_miqp_phases. cbv zeta. by destruct c.
  - apply optimize_not_in_configured.
  - apply configured_calls.
Qed.

(** C4.  In the record of a solved problem with constraints, [dual] is there
    exactly when [get_duals] is set and the list of binary indices is empty
    (or was not given). *)
Theorem C4_dual_iff Q c A b equality_constraints bin_vars verbose get_duals
    log r num_vars num_constraints :
  solve_miqp gurobi Q c A b equality_constraints bin_vars verbose get_duals
    = (log, Ok (Some r)) →
  get_program_parameters Q c A b = Ok (num_vars, num_constraints) →
  num_constraints ≠ 0 →
  (is_Some (dual r) ↔ get_duals = true ∧ default [] bin_vars = []).
Proof.
  intros Hrun Hgpp Hnc. record_of_run Hrun Hgpp Hr.
  apply extract_solution_constrained in Hr
    as (a & bv & ax & resid & sl & _ & _ & _ & _ & _ & _ & _ & _ & _ & Hdual);
    [|done].
  destruct get_duals; simpl in Hdual.
  - case_bool_decide as Hbin.
    + destruct Hdual as (pi & _ & ->). split; [done|by eexists].
    + rewrite Hdual. split; [by intros [? ?]|by intros [_ ?]].
  - rewrite Hdual. split; [by intros [? ?]|by intros [? _]].
Qed.

(** C5.  When [A] or [b] is missing or of size zero, [solve_lp] and
    [solve_milp] return [None] and the solver log is empty: the formulator,
    whose log is never empty, was not entered.  Otherwise [solve_lp] is the
    formulator with [Q] absent and no binary variables, and [solve_milp] the
    formulator with [Q] absent and the binary indices as given. *)
Theorem C5_lp_milp_precondition c A b equality_constraints bin_vars verbose
    get_duals :
  (degenerate A b →
   solve_lp gurobi c A b equality_constraints verbose get_duals
     = ([], Ok None)
   ∧ solve_milp gurobi c A b equality_constraints bin_vars verbose get_duals
     = ([], Ok None))
  ∧ (¬ degenerate A b →
     solve_lp gurobi c A b equality_constraints verbose get_duals
       = solve_miqp gurobi None c A b equality_constraints None verbose
           get_duals
     ∧ solve_milp gurobi c A b equality_constraints bin_vars verbose get_duals
       = solve_miqp gurobi None c A b equality_constraints bin_vars verbose
           get_duals)
  ∧ (∀ Q' c' A' b' eqs' bins' verbose' get_duals',
       (solve_miqp gurobi Q' c' A' b' eqs' bins' verbose' get_duals').1 ≠ []).
Proof.
  unfold degenerate, solve_lp, solve_milp. split; [|split].
  - intros [->|[->|[(a & -> & Ha)|(bv & -> & Hbv)]]].
    + done.
    + by destruct A.
    + destruct b; [|done]. by rewrite (bool_decide_eq_true_2 _ Ha).
    + destruct A; [|done]. rewrite (bool_decide_eq_true_2 _ Hbv).
      by rewrite orb_true_r.
  - intros Hnd. destruct A as [a|]; [|tauto]. destruct b as [bv|]; [|tauto].
    rewrite !bool_decide_eq_false_2; [done|..].
    + intros Hbv. apply Hnd. right. right. right. by exists bv.
    + intros Ha. apply Hnd. right. right. left. by exists a.
  - intros Q' c' A' b' eqs' bins' verbose' get_duals' Hnil.
    pose proof (solve_miqp_creates_model Q' c' A' b' eqs' bins' verbose'
                  get_duals') as Hin.
    rewrite Hnil in Hin. by apply elem_of_nil in Hin.
Qed.

(** C6.  In the record of a solved problem without constraints, [slack],
    [active_set] and [dual] are absent, and [obj] and [sol] are the
    objective value and the primal vector the solver reported. *)
Theorem C6_unconstrained_record Q c A b equality_constraints bin_vars verbose
    get_duals log r num_vars :
  solve_miqp gurobi Q c A b equality_constraints bin_vars verbose get_duals
    = (log, Ok (Some r)) →
  get_program_parameters Q c A b = Ok (num_vars, 0) →
  slack r = None ∧ active_set r = None ∧ dual r = None
  ∧ ∃ solved,
      gurobi (submitted Q c verbose (default [] bin_vars) num_vars [])
        = Ok solved
      ∧ ObjVal solved = Ok (obj r) ∧ X solved = Ok (sol r).
Proof.
  intros Hrun Hgpp. record_of_run Hrun Hgpp Hr.
  unfold constraint_calls in *.
  rewrite bool_decide_eq_false_2 in * by lia. simplify_eq.
  apply extract_solution_unconstrained in Hr as (Hobj & Hx & -> & -> & ->).
  repeat split. by eexists.
Qed.

(** C7.  A run that reaches [optimize()] has passed dimension inference and
    the constraint block.  If [optimize()] raises, so does the run.
    Otherwise the run returns [None] exactly when the status is neither
    OPTIMAL nor SUBOPTIMAL -- whatever else it is -- and with one of these
    two its result is what the extraction of lines 149-164 gives: a record
    carrying the solver's objective value and primal vector, once the
    attributes are there and, under constraints, the shapes fit. *)
Theorem C7_absent_iff_not_solved Q c A b equality_constraints bin_vars verbose
    get_duals log res :
  solve_miqp gurobi Q c A b equality_constraints bin_vars verbose get_duals
    = (log, res) →
  optimize ∈ log →
  ∃ num_vars num_constraints cs,
    get_program_parameters Q c A b = Ok (num_vars, num_constraints)
    ∧ constraint_calls A b num_constraints (default [] equality_constraints)
        = Ok cs
    ∧ match gurobi (submitted Q c verbose (default [] bin_vars) num_vars cs)
      with
      | Raise e => res = Raise e
      | Ok solved =>
          (res = Ok None ↔
           status solved ≠ GRB.OPTIMAL ∧ status solved ≠ GRB.SUBOPTIMAL)
          ∧ (status solved = GRB.OPTIMAL ∨ status solved = GRB.SUBOPTIMAL →
             res = Some <$> extract_solution solved A b num_constraints
                              (default [] bin_vars) get_duals
             ∧ ∀ o x sl pi,
                 ObjVal solved = Ok o → X solved = Ok x →
                 Slack solved = Ok sl → Pi solved = Ok pi →
                 (num_constraints ≠ 0 → conformable A b x) →
                 ∃ r, res = Ok (Some r) ∧ obj r = o ∧ sol r = x)
      end.
Proof.
  rewrite solve_miqp_phases. cbv zeta. intros Hrun Hopt.
  pose proof (optimize_not_in_configured verbose (default [] bin_vars)) as Hcfg.
  destruct (get_program_parameters Q c A b) as [[num_vars num_constraints]|];
    [|apply pair_equal_spec in Hrun as [<- <-]; contradiction].
  destruct (bool_decide (A = None) && bool_decide (Q = None));
    [apply pair_equal_spec in Hrun as [<- <-]; contradiction|].
  destruct (constraint_calls _ _ _ _) as [cs|] eqn:Hcs.
  2: { apply pair_equal_spec in Hrun as [<- <-].
       apply elem_of_app in Hopt as [?|Hopt]; [contradiction|].
       apply elem_of_cons in Hopt as [?|Hopt]; [discriminate|].
       by apply elem_of_nil in Hopt. }
  exists num_vars, num_constraints, cs. split; [done|]. split; [done|].
  destruct (gurobi _) as [solved|];
    [|by apply pair_equal_spec in Hrun as [<- <-]].
  apply pair_equal_spec in Hrun as [<- <-]. case_bool_decide as Hst.
  - split; [done|]. intros [?|?]; by destruct Hst.
  - split.
    + split; [|done]. by destruct (extract_solution _ _ _ _ _ _).
    + intros _. split; [done|]. intros o x sl pi Ho Hx Hsl Hpi Hshape.
      destruct (extract_solution_total solved A b num_constraints
                  (default [] bin_vars) get_duals o x sl pi)
        as (r & -> & Hobj & Hsol); [done..|].
      by exists r.
Qed.

(** C9.  [solve_qp] is the formulator with an empty list of binary indices:
    same log, same result. *)
Theorem C9_qp_is_miqp_without_binaries Q c A b equality_constraints verbose
    get_duals :
  solve_qp gurobi Q c A b equality_constraints verbose get_duals
  = solve_miqp gurobi Q c A b equality_constraints (Some []) verbose get_duals.
Proof. unfold solve_qp. by rewrite !solve_miqp_phases. Qed.

(** C10.  [solve_milp] without binary indices, or with an empty list of
    them, is [solve_lp]: same log, same result. *)
Theorem C10_milp_without_binaries_is_lp c A b equality_constraints verbose
    get_duals :
  solve_milp gurobi c A b equality_constraints None verbose get_duals
  = solve_lp gurobi c A b equality_constraints verbose get_duals
  ∧ solve_milp gurobi c A b equality_constraints (Some []) verbose get_duals
    = solve_lp gurobi c A b equality_constraints verbose get_duals.
Proof.
  unfold solve_milp, solve_lp. split; [done|].
  destruct A as [a|], b as [bv|]; reflexivity.
Qed.

End Formulator.

(** ** The comparison of two records *)

(** C8.  A record without [slack] -- what the formulator returns for a
    problem without constraints -- cannot be compared: [numpy.allclose] is
    handed [None] and raises, whatever the other record and the other
    fields are. *)
Theorem C8_eq_raises_without_slack o x a d other :
  SolverOutput_eq
    {| obj := o; sol := x; slack := None; active_set := a; dual := d |} other
  = Raise TypeError.
Proof. reflexivity. Qed.

(** X15.  With every optional field in place, shapes that agree and a difference
    of objectives whose square does not overflow, the comparison is the
    conjunction the description gives: the four arrays close entry by entry
    and the squared difference of the objectives below 1e-10. *)
Lemma SolverOutput_eq_populated o o' x x' s s' a a' d d' :
  length s = length s' → length a = length a' →
  length d = length d' → length x = length x' →
  float_pow2 (o - o')%float = Ok ((o - o') * (o - o'))%float →
  SolverOutput_eq
    {| obj := o; sol := x; slack := Some s; active_set := Some a;
       dual := Some d |}
    {| obj := o'; sol := x'; slack := Some s'; active_set := Some a';
       dual := Some d' |}
  = Ok (forallb id (zip_with np.isclose s s')
        && forallb id (zip_with np.isclose (np.astype_float a)
                                           (np.astype_float a'))
        && forallb id (zip_with np.isclose d d')
        && forallb id (zip_with np.isclose x x')
        && PrimFloat.ltb ((o - o') * (o - o')) 1e-10).
Proof.
  intros Hs Ha Hd Hx Hpow.
  unfold SolverOutput_eq, np.allclose, np.broadcast, np.astype_float; simpl.
  rewrite !decide_True by (by rewrite ?length_fmap).
  rewrite Hpow. simpl.
  repeat (destruct (forallb id _); simpl; [|reflexivity]).
  reflexivity.
Qed.

(** ** The concrete runs *)

Example solve_lp_nonneg :
  solve_lp origin_oracle (Some nonneg_c) (Some nonneg_A) (Some nonneg_b) None
    false true
  = (nonneg_log, Ok (Some nonneg_record)).
Proof. reflexivity. Qed.

(** A right-hand side at distance 1e-6 squares to the threshold itself and
    stays out; at 9.9e-7 it is in. *)
Example active_set_threshold :
  (solve_lp origin_oracle (Some nonneg_c) (Some nonneg_A)
     (Some [1e-6; 9.9e-7]%float) None false true).2
  = Ok (Some {| obj := 0; sol := [0; 0]%float; slack := Some [0; 0]%float;
                active_set := Some [1]; dual := Some [-1; -1]%float |}).
Proof. reflexivity. Qed.

(** An empty [A], an empty [b]: no call reaches the solver. *)
Example solve_lp_empty :
  solve_lp origin_oracle (Some nonneg_c) (Some (np.Matrix 2 [])) (Some [])
    None false true = ([], Ok None)
  ∧ solve_milp origin_oracle (Some nonneg_c) (Some nonneg_A) (Some [])
      None (Some [0%Z]) false true = ([], Ok None).
Proof. split; reflexivity. Qed.

(** The record of a problem without constraints is not equal to itself. *)
Example origin_record_not_comparable :
  solve_qp origin_oracle (Some identity_Q) None None None None false true
    = (origin_log, Ok (Some origin_record))
  ∧ SolverOutput_eq origin_record origin_record = Raise TypeError.
Proof. split; reflexivity. Qed.

(** The record of the constrained problem is. *)
Example nonneg_record_self_equal :
  SolverOutput_eq nonneg_record nonneg_record = Ok true.
Proof. reflexivity. Qed.

Lemma C1_active_set_exact_witness :
  0 < 2 ∧ ∃ acts, active_set nonneg_record = Some acts ∧ NoDup acts.
Proof.
  split; [lia|].
  destruct (C1_active_set_exact origin_oracle None (Some nonneg_c)
              (Some nonneg_A) (Some nonneg_b) None None false true
              nonneg_log nonneg_record 2 2)
    as (a & bv & ax & resid & acts & _ & _ & _ & _ & Hact & Hnd & _).
  - reflexivity.
  - reflexivity.
  - lia.
  - by exists acts.
Defined.

Lemma C2_dimension_inference_witness :
  get_program_parameters (Some disagreeing_Q) (Some disagreeing_c)
      (Some disagreeing_A) (Some disagreeing_b)
    = Ok (4, 2)
  ∧ get_program_parameters (Some disagreeing_Q) None
      (Some disagreeing_A) (Some disagreeing_b)
    = Ok (5, 2)
  ∧ get_program_parameters (Some disagreeing_Q) None None (Some disagreeing_b)
    = Ok (3, 0).
Proof.
  split; [|split].
  - apply (C2_dimension_inference (Some disagreeing_Q) (Some disagreeing_c)
             (Some disagreeing_A) (Some disagreeing_b)).
    intros _. by eexists.
  - apply (C2_dimension_inference (Some disagreeing_Q) None
             (Some disagreeing_A) (Some disagreeing_b)).
    intros _. by eexists.
  - apply (C2_dimension_inference (Some disagreeing_Q) None None
             (Some disagreeing_b)).
    intros _. by eexists.
Defined.

Lemma C4_dual_iff_witness :
  is_Some (dual nonneg_record) ↔ true = true ∧ default [] (@None (list Z)) = [].
Proof.
  apply (C4_dual_iff origin_oracle None (Some nonneg_c) (Some nonneg_A)
           (Some nonneg_b) None None false true nonneg_log nonneg_record 2 2).
  - reflexivity.
  - reflexivity.
  - lia.
Defined.

Lemma C6_unconstrained_record_witness :
  slack origin_record = None ∧ active_set origin_record = None
  ∧ dual origin_record = None
  ∧ ∃ solved,
      origin_oracle (submitted (Some identity_Q) None false [] 2 []) = Ok solved
      ∧ ObjVal solved = Ok (obj origin_record)
      ∧ X solved = Ok (sol origin_record).
Proof.
  apply (C6_unconstrained_record origin_oracle (Some identity_Q) None None None
           None None false true origin_log origin_record 2).
  - reflexivity.
  - reflexivity.
Defined.

Lemma C7_absent_iff_not_solved_witness :
  ∃ cs, constraint_calls (Some nonneg_A) (Some nonneg_b) 2 [] = Ok cs
        ∧ Ok (Some nonneg_record)
          = Some <$> extract_solution origin_solved (Some nonneg_A)
                       (Some nonneg_b) 2 [] true.
Proof.
  destruct (C7_absent_iff_not_solved origin_oracle None (Some nonneg_c)
              (Some nonneg_A) (Some nonneg_b) None None false true
              nonneg_log (Ok (Some nonneg_record)))
    as (nv & nc & cs & Hgpp & Hcs & _ & Hres).
  - reflexivity.
  - unfold nonneg_log. vm_compute. repeat constructor.
  - vm_compute in Hgpp. simplify_eq. exists cs. split; [done|].
    apply Hres. by left.
Defined.

(** * Further properties of the module *)

Lemma index_raises (n : nat) (i : Z) :
  ¬ row_index n i → np.index n i = Raise IndexError.
Proof.
  unfold np.index, row_index. intros Hi.
  destruct (decide (0 ≤ i < Z.of_nat n)%Z); [lia|].
  destruct (decide (- Z.of_nat n ≤ i < 0)%Z); [lia|done].
Qed.

Lemma setitem_out_of_range {A} (a : list A) idx v i :
  i ∈ idx → ¬ row_index (length a) i → np.setitem a idx v = Raise IndexError.
Proof.
  revert a. induction idx as [|j idx IH]; intros a Hin Hi; simpl.
  - by apply elem_of_nil in Hin.
  - apply elem_of_cons in Hin as [<-|Hin].
    + by rewrite index_raises.
    + destruct (np.index (length a) j) as [k|e] eqn:Hj; simpl.
      * apply IH; [done|]. by rewrite length_insert.
      * unfold np.index in Hj. repeat case_decide; by simplify_eq.
Qed.



Lemma constraint_calls_out_of_range A b nc eqs i :
  nc ≠ 0 → i ∈ eqs → ¬ row_index nc i →
  constraint_calls A b nc eqs = Raise IndexError.
Proof.
  unfold constraint_calls. intros Hnc Hin Hi.
  rewrite bool_decide_eq_true_2 by done.
  rewrite (setitem_out_of_range _ eqs _ i); [done..|].
  unfold np.chararray. by rewrite length_replicate.
Qed.

Lemma constraint_calls_unconstrained A b eqs :
  constraint_calls A b 0 eqs = Ok [].
Proof. reflexivity. Qed.

Lemma constraint_calls_shape A b nc eqs cs :
  constraint_calls A b nc eqs = Ok cs →
  (nc = 0 ∧ cs = []) ∨ (nc ≠ 0 ∧ ∃ sense, cs = [addMConstrs A sense b]).
Proof.
  unfold constraint_calls. intros Hcs. case_bool_decide as Hnc.
  - right. split; [done|].
    destruct (np.setitem _ eqs _) as [s1|]; simplify_eq/=.
    destruct (np.setitem s1 _ _) as [s2|]; simplify_eq/=. by eexists.
  - left. simplify_eq. split; [lia|done].
Qed.



Section SolveCondition.

Context (gurobi : Model → result Solved).


End SolveCondition.

Lemma filter_setParam_submitted_tail Q c A b nc eqs nv bins cs :
  constraint_calls A b nc eqs = Ok cs →
  filter is_setParam
    ([addMVar nv (var_types nv bins)] ++ cs
     ++ [setObjective {| quadratic := Q; linear := np.flatten <$> c |};
         optimize]) = [].
Proof.
  intros Hcs.
  by destruct (constraint_calls_shape _ _ _ _ _ Hcs)
    as [[_ ->]|[_ [sense ->]]].
Qed.

Section Parameters.

Context (gurobi : Model → result Solved).

(** Every log starts with the configuration, and no parameter is set after it. *)
Lemma solve_miqp_log_configured Q c A b equality_constraints bin_vars verbose
    get_duals :
  ∃ rest : list SolverCall,
    (solve_miqp gurobi Q c A b equality_constraints bin_vars verbose
       get_duals).1
    = configured verbose (default [] bin_vars) ++ rest
    ∧ filter is_setParam rest = [].
Proof.
  rewrite solve_miqp_phases. cbv zeta.
  destruct (get_program_parameters Q c A b) as [[nv nc]|]; cbn [fst];
    [|exists []; by rewrite app_nil_r].
  destruct (bool_decide (A = None) && bool_decide (Q = None)); cbn [fst];
    [exists []; by rewrite app_nil_r|].
  destruct (constraint_calls _ _ _ _) as [cs|e] eqn:Hcs; cbn [fst];
    [|by eexists].
  pose proof (filter_setParam_submitted_tail Q c A b _ _ nv
                (default [] bin_vars) _ Hcs) as Htail.
  unfold submitted.
  destruct (gurobi _) as [solved|]; cbn [fst].
  - eexists. rewrite <- app_assoc. split; [done|].
    by rewrite filter_app, Htail.
  - by eexists.
Qed.

(** X2.  Every run sets Quad=1, FeasibilityTol=1e-9, OptimalityTol=1e-9 and
    Presolve=0; it sets OutputFlag=0 exactly when [verbose] is off and
    Method=0 exactly when no binary index is given; and it sets no other
    parameter, on any path. *)
Theorem X2_parameters Q c A b equality_constraints bin_vars verbose
    get_duals :
  let log := (solve_miqp gurobi Q c A b equality_constraints bin_vars verbose
                get_duals).1 in
  (setParam "OutputFlag" (PInt 0) ∈ log ↔ verbose = false)
  ∧ (setParam "Method" (PInt 0) ∈ log ↔ default [] bin_vars = [])
  ∧ setParam "Quad" (PInt 1) ∈ log
  ∧ setParam "FeasibilityTol" (PFloat 1e-9) ∈ log
  ∧ setParam "OptimalityTol" (PFloat 1e-9) ∈ log
  ∧ setParam "Presolve" (PInt 0) ∈ log
  ∧ length (filter is_setParam log)
    = 4 + (if verbose then 0 else 1)
        + (if bool_decide (default [] bin_vars = []) then 1 else 0).
Proof.
  cbv zeta.
  destruct (solve_miqp_log_configured Q c A b equality_constraints bin_vars
              verbose get_duals) as (rest & -> & Hrest).
  assert (Hmem : ∀ name value,
    setParam name value ∈ configured verbose (default [] bin_vars) ++ rest ↔
    setParam name value ∈ configured verbose (default [] bin_vars)).
  { intros name value. rewrite elem_of_app. split; [|by left].
    intros [?|Hin]; [done|].
    assert (Hf : setParam name value ∈ filter is_setParam rest)
      by (by apply list_elem_of_filter).
    rewrite Hrest in Hf. by apply elem_of_nil in Hf. }
  unfold Model in *. rewrite filter_app, Hrest, app_nil_r, !Hmem.
  unfold configured.
  destruct verbose, (default [] bin_vars) as [|z bins]; simpl;
    rewrite ?elem_of_cons, ?elem_of_nil;
    repeat split; try tauto; try congruence;
    intros Hin; exfalso;
    repeat (destruct Hin as [Hin|Hin]; [congruence|]); done.
Qed.

End Parameters.

Section Formulation.

Context (gurobi : Model → result Solved).

(** X3.  A run on a problem with constraints that reaches [optimize()] has
    declared them in one [addMConstrs] call, with [A] and [b] as given and
    one sense per constraint: '=' for row [i] exactly when [i] itself is in
    [equality_constraints], '<' otherwise.  A row named by a negative index
    ends as '<': the second assignment overwrites it. *)
Theorem X3_constraint_senses Q c A b equality_constraints bin_vars verbose
    get_duals log res num_vars num_constraints :
  solve_miqp gurobi Q c A b equality_constraints bin_vars verbose get_duals
    = (log, res) →
  optimize ∈ log →
  get_program_parameters Q c A b = Ok (num_vars, num_constraints) →
  num_constraints ≠ 0 →
  ∃ sense,
    filter is_addMConstrs log = [addMConstrs A sense b]
    ∧ length sense = num_constraints
    ∧ ∀ i, i < num_constraints →
        sense !! i
        = Some (Some (if bool_decide
                           (Z.of_nat i ∈ default [] equality_constraints)
                      then GRB.EQUAL else GRB.LESS_EQUAL)).
Proof.
  rewrite solve_miqp_phases. cbv zeta. intros Hrun Hopt Hgpp Hnc.
  pose proof (optimize_not_in_configured verbose (default [] bin_vars)) as Hcfg.
  assert (Hf : filter is_addMConstrs
                 (configured verbose (default [] bin_vars)) = []).
  { unfold configured.
    by destruct verbose, (bool_decide (length (default [] bin_vars) = 0)). }
  rewrite Hgpp in Hrun.
  destruct (bool_decide (A = None) && bool_decide (Q = None));
    [apply pair_equal_spec in Hrun as [<- <-]; contradiction|].
  destruct (constraint_calls _ _ _ _) as [cs|] eqn:Hcs.
  2: { apply pair_equal_spec in Hrun as [<- <-].
       apply elem_of_app in Hopt as [?|Hopt]; [contradiction|].
       apply elem_of_cons in Hopt as [?|Hopt]; [discriminate|].
       by apply elem_of_nil in Hopt. }
  destruct (constraint_calls_senses A b _ _ cs Hnc Hcs)
    as (sense & -> & Hlen & Hsense).
  exists sense. split; [|done].
  unfold submitted, Model in *.
  destruct (gurobi _) as [solved|];
    apply pair_equal_spec in Hrun as [<- _];
    rewrite !filter_app, Hf; reflexivity.
Qed.

(** X4.  Under constraints, an equality index outside
    [-num_constraints, num_constraints) makes [solve_miqp] raise
    [IndexError] once the variables are declared: no constraint and no
    objective reach the solver, and [optimize()] is not called. *)
Theorem X4_equality_index_error Q c A b equality_constraints bin_vars
    verbose get_duals num_vars num_constraints i :
  get_program_parameters Q c A b = Ok (num_vars, num_constraints) →
  num_constraints ≠ 0 →
  i ∈ default [] equality_constraints →
  ¬ row_index num_constraints i →
  solve_miqp gurobi Q c A b equality_constraints bin_vars verbose get_duals
  = (configured verbose (default [] bin_vars)
     ++ [addMVar num_vars (var_types num_vars (default [] bin_vars))],
     Raise IndexError).
Proof.
  intros Hgpp Hnc Hin Hout. rewrite solve_miqp_phases. cbv zeta.
  rewrite Hgpp.
  destruct (get_program_parameters_constrained _ _ _ _ _ _ Hgpp Hnc)
    as (a & bv & -> & -> & _).
  rewrite (constraint_calls_out_of_range _ _ _ _ i Hnc Hin Hout).
  reflexivity.
Qed.

(** X5.  When the constraint count is zero -- no [A], or an [A] with an
    empty [b] -- no [addMConstrs] call is made, so a given [A] is dropped, and
    [equality_constraints] is never read: any other list gives the same
    run. *)
Theorem X5_unconstrained_ignores_equalities Q c A b equality_constraints bin_vars
    verbose get_duals num_vars :
  get_program_parameters Q c A b = Ok (num_vars, 0) →
  filter is_addMConstrs
    (solve_miqp gurobi Q c A b equality_constraints bin_vars verbose
       get_duals).1 = []
  ∧ ∀ equality_constraints',
      solve_miqp gurobi Q c A b equality_constraints' bin_vars verbose get_duals
      = solve_miqp gurobi Q c A b equality_constraints bin_vars verbose
          get_duals.
Proof.
  intros Hgpp. split.
  - rewrite solve_miqp_phases. cbv zeta. rewrite Hgpp.
    assert (Hf : filter is_addMConstrs
                   (configured verbose (default [] bin_vars)) = []).
    { unfold configured.
      by destruct verbose, (bool_decide (length (default [] bin_vars) = 0)). }
    rewrite constraint_calls_unconstrained. unfold submitted, Model in *.
    destruct (bool_decide (A = None) && bool_decide (Q = None)); [done|].
    destruct (gurobi _); cbn [fst]; by rewrite !filter_app, Hf.
  - intros eqs'. rewrite !solve_miqp_phases. cbv zeta. rewrite Hgpp.
    by rewrite !constraint_calls_unconstrained.
Qed.

(** X6.  Without [A], [b] and [equality_constraints] are never read: the
    run is the one with both left out. *)
Theorem X6_without_A_ignores_b Q c b equality_constraints bin_vars
    verbose get_duals :
  solve_miqp gurobi Q c None b equality_constraints bin_vars verbose get_duals
  = solve_miqp gurobi Q c None None None bin_vars verbose get_duals.
Proof.
  rewrite !solve_miqp_phases. cbv zeta.
  assert (Hgpp : ∀ b', ∃ nv, get_program_parameters Q c None b' = Ok (nv, 0)
                            ∧ get_program_parameters Q c None None = Ok (nv, 0)).
  { intros b'. unfold get_program_parameters. simpl. by eexists. }
  destruct (Hgpp b) as (nv & -> & ->).
  destruct (bool_decide (@None matrix = None) && bool_decide (Q = None));
    [done|].
  rewrite !constraint_calls_unconstrained.
  unfold submitted. destruct (gurobi _) as [solved|]; [|done].
  by destruct (bool_decide _).
Qed.

(** X7.  An [A] without its [b]: [solve_miqp] and [solve_qp] raise
    [AttributeError] after the model is configured, whereas [solve_lp] and
    [solve_milp] return [None] without touching the solver. *)
Theorem X7_missing_b Q c a equality_constraints bin_vars verbose
    get_duals :
  solve_miqp gurobi Q c (Some a) None equality_constraints bin_vars verbose
      get_duals
    = (configured verbose (default [] bin_vars), Raise AttributeError)
  ∧ solve_qp gurobi Q c (Some a) None equality_constraints verbose get_duals
    = (configured verbose [], Raise AttributeError)
  ∧ solve_lp gurobi c (Some a) None equality_constraints verbose get_duals
    = ([], Ok None)
  ∧ solve_milp gurobi c (Some a) None equality_constraints bin_vars verbose
      get_duals
    = ([], Ok None).
Proof.
  unfold solve_qp. rewrite !solve_miqp_phases. cbv zeta.
  rewrite get_program_parameters_no_b. done.
Qed.

(** X8.  Once the counts are inferred and [Q] or [A] is given, the first
    call after the configuration declares [num_vars] variables, variable [i]
    binary exactly when [i] itself is in [bin_vars] and continuous
    otherwise; an index outside [range(num_vars)], negative ones included,
    types no variable. *)
Theorem X8_variable_types Q c A b equality_constraints bin_vars verbose
    get_duals num_vars num_constraints :
  get_program_parameters Q c A b = Ok (num_vars, num_constraints) →
  ¬ (A = None ∧ Q = None) →
  ∃ (vtype : list GRB.VType) (after : list SolverCall),
    (solve_miqp gurobi Q c A b equality_constraints bin_vars verbose
       get_duals).1
    = configured verbose (default [] bin_vars)
      ++ [addMVar num_vars vtype] ++ after
    ∧ length vtype = num_vars
    ∧ ∀ i, i < num_vars →
        vtype !! i
        = Some (if bool_decide (Z.of_nat i ∈ default [] bin_vars)
                then GRB.BINARY else GRB.CONTINUOUS).
Proof.
  intros Hgpp Hposed. rewrite solve_miqp_phases. cbv zeta. rewrite Hgpp.
  assert (bool_decide (A = None) && bool_decide (Q = None) = false) as ->.
  { apply andb_false_iff.
    destruct (decide (A = None)); [right|left];
      apply bool_decide_eq_false_2; tauto. }
  exists (var_types num_vars (default [] bin_vars)).
  assert (Hvt : length (var_types num_vars (default [] bin_vars)) = num_vars
    ∧ ∀ i, i < num_vars →
        var_types num_vars (default [] bin_vars) !! i
        = Some (if bool_decide (Z.of_nat i ∈ default [] bin_vars)
                then GRB.BINARY else GRB.CONTINUOUS)).
  { unfold var_types. split; [by rewrite length_fmap, length_seq|].
    intros i Hi. by rewrite list_lookup_fmap, lookup_seq_lt. }
  unfold submitted.
  destruct (constraint_calls _ _ _ _) as [cs|]; cbn [fst];
    [|by exists []].
  destruct (gurobi _) as [solved|]; cbn [fst]; eexists;
    (split; [|done]); rewrite <- ?app_assoc; reflexivity.
Qed.

End Formulation.

Lemma StronglySorted_where_from (mask : list bool) (i : nat) :
  StronglySorted lt (np.where_from i mask).
Proof.
  revert i. induction mask as [|m mask IH]; intros i; simpl.
  - constructor.
  - destruct m; [|done]. constructor; [done|].
    apply Forall_forall. intros j Hj.
    apply elem_of_where_from in Hj. lia.
Qed.

Lemma residual_length (a : matrix) (x bv ax r : vector) :
  np.matmul a x = Ok ax → np.subtract ax bv = Ok r →
  np.shape0 a = np.shape0v bv → length r = np.shape0v bv.
Proof.
  unfold np.matmul, np.subtract, np.broadcast, np.shape0, np.shape0v.
  intros Hax Hr Hlen.
  destruct (decide (np.shape1 a = length x)); [|done].
  simplify_eq. rewrite length_fmap in Hr.
  destruct (decide (length (np.mrows a) = length bv)); [|done].
  simplify_eq. rewrite length_zip_with, length_fmap. lia.
Qed.

Section Records.

Context (gurobi : Model → result Solved).

(** X9.  A returned record is read off the model that was optimized: the
    status was OPTIMAL or SUBOPTIMAL, [obj] and [sol] are its ObjVal and X,
    [slack] under constraints is its Slack attribute (not recomputed from
    [A], [b] and [sol]), and a [dual] is its Pi; [update()] is the last call
    of the run. *)
Theorem X9_record_attributes Q c A b equality_constraints bin_vars
    verbose get_duals log r :
  solve_miqp gurobi Q c A b equality_constraints bin_vars verbose get_duals
    = (log, Ok (Some r)) →
  ∃ num_vars num_constraints cs solved,
    get_program_parameters Q c A b = Ok (num_vars, num_constraints)
    ∧ log = submitted Q c verbose (default [] bin_vars) num_vars cs ++ [update]
    ∧ gurobi (submitted Q c verbose (default [] bin_vars) num_vars cs)
      = Ok solved
    ∧ (status solved = GRB.OPTIMAL ∨ status solved = GRB.SUBOPTIMAL)
    ∧ ObjVal solved = Ok (obj r) ∧ X solved = Ok (sol r)
    ∧ (num_constraints ≠ 0 →
       ∃ sl, Slack solved = Ok sl ∧ slack r = Some sl)
    ∧ (∀ pi, dual r = Some pi → Pi solved = Ok pi).
Proof.
  intros Hrun.
  apply solve_miqp_record in Hrun
    as (nv & nc & cs & solved & Hgpp & Hcs & Hsolved & Hlog & Hok & Hr).
  exists nv, nc, cs, solved. repeat split; try done.
  - destruct (decide (nc = 0)) as [->|Hnc].
    + by apply extract_solution_unconstrained in Hr as (? & _).
    + by apply extract_solution_constrained in Hr
        as (? & ? & ? & ? & ? & _ & _ & ? & _).
  - destruct (decide (nc = 0)) as [->|Hnc].
    + by apply extract_solution_unconstrained in Hr as (_ & ? & _).
    + by apply extract_solution_constrained in Hr
        as (? & ? & ? & ? & ? & _ & _ & _ & ? & _).
  - intros Hnc. apply extract_solution_constrained in Hr
      as (? & ? & ? & ? & sl & _ & _ & _ & _ & ? & ? & _); [|done].
    by exists sl.
  - intros pi Hpi. destruct (decide (nc = 0)) as [->|Hnc].
    + apply extract_solution_unconstrained in Hr as (_ & _ & _ & _ & Hd).
      congruence.
    + apply extract_solution_constrained in Hr
        as (? & ? & ? & ? & ? & _ & _ & _ & _ & _ & _ & _ & _ & _ & Hd);
        [|done].
      destruct (get_duals && bool_decide (default [] bin_vars = []));
        [|congruence].
      destruct Hd as (pi' & ? & ?). congruence.
Qed.

(** X10.  The active set of a returned record is strictly increasing, and
    with one right-hand side per row of [A] every index in it is below the
    constraint count. *)
Theorem X10_active_set_sorted Q c A b equality_constraints bin_vars
    verbose get_duals log r num_vars num_constraints :
  solve_miqp gurobi Q c A b equality_constraints bin_vars verbose get_duals
    = (log, Ok (Some r)) →
  get_program_parameters Q c A b = Ok (num_vars, num_constraints) →
  num_constraints ≠ 0 →
  ∃ acts,
    active_set r = Some acts
    ∧ StronglySorted lt acts
    ∧ (∀ a bv, A = Some a → b = Some bv → np.shape0 a = np.shape0v bv →
               ∀ i, i ∈ acts → i < num_constraints).
Proof.
  intros Hrun Hgpp Hnc.
  apply solve_miqp_record in Hrun
    as (nv & nc & cs & solved & Hgpp' & _ & _ & _ & _ & Hr).
  rewrite Hgpp in Hgpp'. simplify_eq.
  apply extract_solution_constrained in Hr
    as (a & bv & ax & resid & sl & -> & -> & _ & _ & _ & _ & Hax & Hres
        & Hact & _); [|done].
  eexists. split; [done|]. split; [apply StronglySorted_where_from|].
  intros a' bv' ? ? Hshape i Hi. simplify_eq.
  apply elem_of_where, less_square_lookup in Hi as (ri & Hri & _).
  apply lookup_lt_Some in Hri.
  rewrite (residual_length _ _ _ _ _ Hax Hres Hshape) in Hri.
  unfold get_program_parameters in Hgpp. simpl in Hgpp.
  by destruct c; simplify_eq/=.
Qed.

(** X11.  Turning [get_duals] off changes nothing but [dual]: if the run
    with the flag returns a record, the run without it makes the same calls
    and returns the same record with [dual] absent. *)
Theorem X11_get_duals_off_drops_dual Q c A b equality_constraints bin_vars verbose
    log r :
  solve_miqp gurobi Q c A b equality_constraints bin_vars verbose true
    = (log, Ok (Some r)) →
  solve_miqp gurobi Q c A b equality_constraints bin_vars verbose false
  = (log, Ok (Some {| obj := obj r; sol := sol r; slack := slack r;
                      active_set := active_set r; dual := None |})).
Proof.
  rewrite !solve_miqp_phases. cbv zeta. intros Hrun.
  destruct (get_program_parameters Q c A b) as [[nv nc]|]; [|done].
  destruct (bool_decide (A = None) && bool_decide (Q = None)); [done|].
  destruct (constraint_calls _ _ _ _) as [cs|]; [|done].
  destruct (gurobi _) as [solved|]; [|done].
  apply pair_equal_spec in Hrun as [<- Hres]. f_equal.
  case_bool_decide; [done|].
  unfold extract_solution in *.
  destruct (ObjVal solved) as [o|], (X solved) as [x|]; simplify_eq/=.
  destruct (decide (nc ≠ 0)); [|by simplify_eq/=].
  destruct (decide (length (default [] bin_vars) = 0));
    [destruct (Pi solved) as [pi|]; simplify_eq/=|simpl in *];
    destruct (Slack solved) as [sl|]; simplify_eq/=;
    destruct A as [a|], b as [bv|]; simplify_eq/=;
    destruct (np.matmul a (np.flatten x)) as [ax|]; simplify_eq/=;
    destruct (np.subtract ax (np.flatten bv)) as [resid|]; by simplify_eq/=.
Qed.

End Records.

Lemma allclose_absent_l b : np.allclose None b = Raise TypeError.
Proof. reflexivity. Qed.

Lemma allclose_absent_r a : np.allclose a None = Raise TypeError.
Proof. by destruct a. Qed.

Lemma broadcast_mismatch {A B C} (f : A → B → C) (x : list A) (y : list B) :
  length x ≠ length y → length x ≠ 1 → length y ≠ 1 →
  np.broadcast f x y = Raise ValueError.
Proof.
  unfold np.broadcast. intros Hxy Hx Hy.
  destruct (decide (length x = length y)); [done|].
  destruct x as [|? [|? ?]], y as [|? [|? ?]]; simpl in *; done.
Qed.

Section Comparison.

Context (gurobi : Model → result Solved).

(** A record out of the guarded entry points comes from a problem with
    constraints. *)
Lemma guarded_record c a bv equality_constraints bin_vars verbose get_duals
    log r :
  np.size bv ≠ 0 →
  solve_miqp gurobi None c (Some a) (Some bv) equality_constraints bin_vars
    verbose get_duals = (log, Ok (Some r)) →
  optimize ∈ log
  ∧ is_Some (slack r) ∧ is_Some (active_set r)
  ∧ (is_Some (dual r) ↔ get_duals = true ∧ default [] bin_vars = []).
Proof.
  intros Hbv Hrun.
  apply solve_miqp_record in Hrun
    as (nv & nc & cs & solved & Hgpp & _ & _ & -> & _ & Hr).
  assert (nc = np.size bv) as ->.
  { unfold get_program_parameters in Hgpp. simpl in Hgpp.
    by destruct c; simplify_eq/=. }
  apply extract_solution_constrained in Hr
    as (? & ? & ? & ? & sl & _ & _ & _ & _ & _ & Hsl & _ & _ & Hact & Hdual);
    [|done].
  split.
  { unfold submitted. rewrite !elem_of_app, !elem_of_cons. tauto. }
  split; [by rewrite Hsl|]. split; [by rewrite Hact|].
  destruct get_duals; simpl in Hdual.
  - case_bool_decide as Hbin.
    + destruct Hdual as (pi & _ & ->). split; [done|by eexists].
    + rewrite Hdual. split; [by intros [? ?]|by intros [_ ?]].
  - rewrite Hdual. split; [by intros [? ?]|by intros [? _]].
Qed.

(** X12.  A record returned by [solve_lp] comes from a run that called
    [optimize()]; its [slack] and [active_set] are present, and its [dual] is
    present exactly when [get_duals] is set. *)
Theorem X12_solve_lp_record c A b equality_constraints verbose get_duals log r :
  solve_lp gurobi c A b equality_constraints verbose get_duals
    = (log, Ok (Some r)) →
  optimize ∈ log
  ∧ is_Some (slack r) ∧ is_Some (active_set r)
  ∧ (is_Some (dual r) ↔ get_duals = true).
Proof.
  unfold solve_lp. intros Hrun.
  destruct A as [a|], b as [bv|]; try done.
  case_bool_decide; [done|]. case_bool_decide as Hbv; [done|].
  simpl in Hrun.
  destruct (guarded_record _ _ _ _ _ _ _ _ _ Hbv Hrun)
    as (? & ? & ? & Hdual).
  repeat split; try done.
  - by intros [? _]%Hdual.
  - intros ->. by apply Hdual.
Qed.

(** X13.  A record returned by [solve_milp] comes from a run that called
    [optimize()]; its [slack] and [active_set] are present, and its [dual] is
    present exactly when [get_duals] is set and no binary index is given. *)
Theorem X13_solve_milp_record c A b equality_constraints bin_vars verbose
    get_duals log r :
  solve_milp gurobi c A b equality_constraints bin_vars verbose get_duals
    = (log, Ok (Some r)) →
  optimize ∈ log
  ∧ is_Some (slack r) ∧ is_Some (active_set r)
  ∧ (is_Some (dual r) ↔ get_duals = true ∧ default [] bin_vars = []).
Proof.
  unfold solve_milp. intros Hrun.
  destruct A as [a|], b as [bv|]; try done.
  case_bool_decide; [done|]. case_bool_decide as Hbv; [done|].
  simpl in Hrun. by eapply guarded_record.
Qed.

(** X14.  A record that [solve_miqp] returns without duals -- [get_duals]
    off, a binary index given, or no constraints -- never compares equal to
    any record, itself included, on either side of [==]: the comparison is
    false or raises. *)
Theorem X14_record_without_dual_never_equal Q c A b equality_constraints bin_vars
    verbose get_duals log r num_vars num_constraints other :
  solve_miqp gurobi Q c A b equality_constraints bin_vars verbose get_duals
    = (log, Ok (Some r)) →
  get_program_parameters Q c A b = Ok (num_vars, num_constraints) →
  get_duals = false ∨ default [] bin_vars ≠ [] ∨ num_constraints = 0 →
  (SolverOutput_eq r other = Ok false
   ∨ ∃ e, SolverOutput_eq r other = Raise e)
  ∧ (SolverOutput_eq other r = Ok false
     ∨ ∃ e, SolverOutput_eq other r = Raise e).
Proof.
  intros Hrun Hgpp Hcase.
  apply solve_miqp_record in Hrun
    as (nv & nc & cs & solved & Hgpp' & _ & _ & _ & _ & Hr).
  rewrite Hgpp in Hgpp'. simplify_eq.
  assert (Hdual : dual r = None).
  { destruct (decide (nc = 0)) as [->|Hnc].
    - by apply extract_solution_unconstrained in Hr as (_ & _ & _ & _ & ?).
    - apply extract_solution_constrained in Hr
        as (? & ? & ? & ? & ? & _ & _ & _ & _ & _ & _ & _ & _ & _ & Hd);
        [|done].
      destruct Hcase as [->|[Hbin|?]]; [by simpl in Hd| |lia].
      by rewrite bool_decide_eq_false_2, andb_false_r in Hd. }
  unfold SolverOutput_eq. rewrite Hdual, allclose_absent_l, allclose_absent_r.
  split.
  - destruct (np.allclose (slack r) (slack other)) as [[]|]; simpl; eauto.
    destruct (np.allclose _ _) as [[]|]; simpl; eauto.
  - destruct (np.allclose (slack other) (slack r)) as [[]|]; simpl; eauto.
    destruct (np.allclose _ _) as [[]|]; simpl; eauto.
Qed.

End Comparison.

(** X16.  Two records whose slacks are close and whose active sets have
    different sizes, neither of size one, cannot be compared: [==] raises
    [ValueError] (the index arrays do not broadcast) instead of returning
    false. *)
Theorem X16_eq_active_set_sizes self other a a' :
  np.allclose (slack self) (slack other) = Ok true →
  active_set self = Some a → active_set other = Some a' →
  length a ≠ length a' → length a ≠ 1 → length a' ≠ 1 →
  SolverOutput_eq self other = Raise ValueError.
Proof.
  intros Hslack Ha Ha' Hne H1 H1'.
  unfold SolverOutput_eq. rewrite Hslack, Ha, Ha'. simpl.
  unfold np.astype_float.
  rewrite (broadcast_mismatch np.isclose (_ <$> a) (_ <$> a'));
    [done|by rewrite !length_fmap..].
Qed.

(** ** The further properties on the concrete runs *)

Lemma X3_constraint_senses_witness :
  ∃ sense,
    filter is_addMConstrs equality_run.1
      = [addMConstrs (Some nonneg_A) sense (Some nonneg_b)]
    ∧ length sense = 2
    ∧ ∀ i, i < 2 →
        sense !! i
        = Some (Some (if bool_decide
                           (Z.of_nat i ∈ default [] (Some [-1; 0]%Z))
                      then GRB.EQUAL else GRB.LESS_EQUAL)).
Proof.
  apply (X3_constraint_senses origin_oracle None (Some nonneg_c)
           (Some nonneg_A) (Some nonneg_b) (Some [-1; 0]%Z) None false true
           equality_run.1 equality_run.2 2 2).
  - reflexivity.
  - vm_compute. repeat constructor.
  - reflexivity.
  - lia.
Defined.

Lemma X4_equality_index_error_witness :
  solve_miqp origin_oracle None (Some nonneg_c) (Some nonneg_A)
    (Some nonneg_b) (Some [5%Z]) None false true
  = (configured false (default [] None)
     ++ [addMVar 2 (var_types 2 (default [] None))], Raise IndexError).
Proof.
  apply (X4_equality_index_error origin_oracle None (Some nonneg_c)
           (Some nonneg_A) (Some nonneg_b) (Some [5%Z]) None false true 2 2
           5%Z).
  - reflexivity.
  - lia.
  - simpl. constructor.
  - unfold row_index. lia.
Defined.

Lemma X5_unconstrained_ignores_equalities_witness :
  filter is_addMConstrs origin_log = []
  ∧ ∀ equality_constraints',
      solve_miqp origin_oracle (Some identity_Q) None None None
        equality_constraints' None false true
      = solve_miqp origin_oracle (Some identity_Q) None None None None None
          false true.
Proof.
  apply (X5_unconstrained_ignores_equalities origin_oracle (Some identity_Q)
           None None None None None false true 2).
  reflexivity.
Defined.

Lemma X8_variable_types_witness :
  ∃ (vtype : list GRB.VType) (after : list SolverCall),
    mixed_run.1
    = configured false (default [] (Some [1%Z]))
      ++ [addMVar 2 vtype] ++ after
    ∧ length vtype = 2
    ∧ ∀ i, i < 2 →
        vtype !! i
        = Some (if bool_decide (Z.of_nat i ∈ default [] (Some [1%Z]))
                then GRB.BINARY else GRB.CONTINUOUS).
Proof.
  apply (X8_variable_types origin_oracle None (Some nonneg_c) (Some nonneg_A)
           (Some nonneg_b) None (Some [1%Z]) false true 2 2).
  - reflexivity.
  - intros [HA _]. discriminate HA.
Defined.

Lemma X9_record_attributes_witness :
  ∃ solved, X solved = Ok (sol nonneg_record)
            ∧ ObjVal solved = Ok (obj nonneg_record).
Proof.
  destruct (X9_record_attributes origin_oracle None (Some nonneg_c)
              (Some nonneg_A) (Some nonneg_b) None None false true
              nonneg_log nonneg_record)
    as (nv & nc & cs & solved & _ & _ & _ & _ & Hobj & Hx & _).
  - reflexivity.
  - by exists solved.
Defined.

Lemma X10_active_set_sorted_witness :
  ∃ acts,
    active_set nonneg_record = Some acts
    ∧ StronglySorted lt acts
    ∧ (∀ a bv, Some nonneg_A = Some a → Some nonneg_b = Some bv →
               np.shape0 a = np.shape0v bv →
               ∀ i, i ∈ acts → i < 2).
Proof.
  apply (X10_active_set_sorted origin_oracle None (Some nonneg_c)
           (Some nonneg_A) (Some nonneg_b) None None false true nonneg_log
           nonneg_record 2 2).
  - reflexivity.
  - reflexivity.
  - lia.
Defined.

Lemma X11_get_duals_off_drops_dual_witness :
  solve_miqp origin_oracle None (Some nonneg_c) (Some nonneg_A)
    (Some nonneg_b) None None false false
  = (nonneg_log,
     Ok (Some {| obj := obj nonneg_record; sol := sol nonneg_record;
                 slack := slack nonneg_record;
                 active_set := active_set nonneg_record; dual := None |})).
Proof.
  apply (X11_get_duals_off_drops_dual origin_oracle None (Some nonneg_c)
           (Some nonneg_A) (Some nonneg_b) None None false nonneg_log
           nonneg_record).
  reflexivity.
Defined.

Lemma X12_solve_lp_record_witness :
  optimize ∈ nonneg_log
  ∧ is_Some (slack nonneg_record) ∧ is_Some (active_set nonneg_record)
  ∧ (is_Some (dual nonneg_record) ↔ true = true).
Proof.
  apply (X12_solve_lp_record origin_oracle (Some nonneg_c) (Some nonneg_A)
           (Some nonneg_b) None false true nonneg_log nonneg_record).
  reflexivity.
Defined.

Lemma X13_solve_milp_record_witness :
  optimize ∈ mixed_run.1
  ∧ is_Some (slack mixed_record) ∧ is_Some (active_set mixed_record)
  ∧ (is_Some (dual mixed_record)
     ↔ true = true ∧ default [] (Some [1%Z]) = []).
Proof.
  apply (X13_solve_milp_record origin_oracle (Some nonneg_c) (Some nonneg_A)
           (Some nonneg_b) None (Some [1%Z]) false true mixed_run.1
           mixed_record).
  reflexivity.
Defined.

Lemma X14_record_without_dual_never_equal_witness :
  (SolverOutput_eq mixed_record mixed_record = Ok false
   ∨ ∃ e, SolverOutput_eq mixed_record mixed_record = Raise e)
  ∧ (SolverOutput_eq mixed_record mixed_record = Ok false
     ∨ ∃ e, SolverOutput_eq mixed_record mixed_record = Raise e).
Proof.
  apply (X14_record_without_dual_never_equal origin_oracle None
           (Some nonneg_c) (Some nonneg_A) (Some nonneg_b) None (Some [1%Z])
           false true mixed_run.1 mixed_record 2 2 mixed_record).
  - reflexivity.
  - reflexivity.
  - right. left. discriminate.
Defined.

Lemma SolverOutput_eq_populated_witness :
  SolverOutput_eq nonneg_record nonneg_record = Ok true.
Proof.
  etrans.
  - apply (SolverOutput_eq_populated 0%float 0%float [0; 0]%float
             [0; 0]%float [0; 0]%float [0; 0]%float [0; 1] [0; 1]
             [-1; -1]%float [-1; -1]%float); reflexivity.
  - reflexivity.
Defined.

Lemma X16_eq_active_set_sizes_witness :
  SolverOutput_eq nonneg_record three_active_record = Raise ValueError.
Proof.
  apply (X16_eq_active_set_sizes nonneg_record three_active_record
           [0; 1] [0; 1; 2]).
  - reflexivity.
  - reflexivity.
  - reflexivity.
  - simpl. lia.
  - simpl. lia.
  - simpl. lia.
Defined.
